(** * CSRF middleware of fiber: the handler built by [csrf.New]

    A shallow embedding of [middleware/csrf/csrf.go].  The request handler
    is a Go closure that reads the request, mutates the response held by
    [*fiber.Ctx], talks to the token storage and either calls the next
    handler or returns [fiber.ErrForbidden].  It is embedded as a
    computation in a state monad over the pair (context, world). *)

From Stdlib Require Import ZArith String Ascii List.
From stdpp Require Import base decidable option strings gmap.

Local Open Scope string_scope.
Local Open Scope Z_scope.

(** ** Go library types used by the middleware *)

Module time.
(** Instants and durations, both counted in nanoseconds. *)
Definition Time := Z.
Definition Duration := Z.

Definition Nanosecond : Duration := 1.
Definition Second : Duration := 1000000000 * Nanosecond.
Definition Minute : Duration := 60 * Second.

(** [t.Add(d)] *)
Definition Add (t : Time) (d : Duration) : Time := t + d.
End time.

Module errors.
(** [errors.New(text)] *)
Record error := New { Error : string }.
End errors.

Module gostrings.
(** [strings.Split(s, sep)] for a one-byte separator: the substrings
    between the occurrences of [sep]; a string without [sep] (the empty
    string too) gives one part. *)
Fixpoint Split (s : string) (sep : ascii) : list string :=
  match s with
  | EmptyString => [EmptyString]
  | String ch rest =>
      if Ascii.eqb ch sep then EmptyString :: Split rest sep
      else match Split rest sep with
           | part :: parts => String ch part :: parts
           | [] => [String ch EmptyString]
           end
  end.
End gostrings.

(** ** The part of package fiber the middleware touches

    Package fiber is declared outside csrf.go; what the handler needs of
    it is given here. *)

Module fiber.
Definition MethodGet := "GET".
Definition MethodPost := "POST".
Definition MethodPut := "PUT".
Definition MethodPatch := "PATCH".
Definition MethodDelete := "DELETE".

Definition HeaderCookie := "Cookie".

Definition StatusForbidden : Z := 403.

(** [*fiber.Error] *)
Record Error := NewError { Code : Z; Message : string }.
Definition ErrForbidden : Error := NewError StatusForbidden "Forbidden".

(** [fiber.Cookie], with the fields the middleware fills in; a field
    left out of a composite literal has Go's zero value. *)
Record Cookie := {
  Name : string;
  Value : string;
  Domain : string;
  Path : string;
  Expires : time.Time;
  Secure : bool;
  HTTPOnly : bool;
  SameSite : string
}.

(** Modelled from the spec: the inbound request behind [*fiber.Ctx],
    which the middleware consumes as already-parsed string values: the
    method, and the headers, query parameters, route parameters, form
    fields and cookies by name. *)
Record Request := {
  req_method : string;
  req_headers : gmap string string;
  req_query : gmap string string;
  req_params : gmap string string;
  req_form : gmap string string;
  req_cookies : gmap string string
}.

(** Modelled from the spec: [*fiber.Ctx], the request together with
    the response under construction: the Set-Cookie headers, the fields
    of the Vary header and the request-scoped key/value slots. *)
Record Ctx := {
  request : Request;
  set_cookies : list Cookie;
  vary : list string;
  locals : gmap string string
}.

Definition value_of (m : gmap string string) (key : string) : string :=
  default "" (m !! key).

(** Modelled from the spec: the accessors [c.Method()], [c.Get(key)],
    [c.Query(key)], [c.Params(key)], [c.FormValue(key)] and
    [c.Cookies(key)]; a value that is absent reads as the empty string. *)
Definition Method (c : Ctx) : string := req_method (request c).
Definition Get (c : Ctx) (key : string) : string := value_of (req_headers (request c)) key.
Definition Query (c : Ctx) (key : string) : string := value_of (req_query (request c)) key.
Definition Params (c : Ctx) (key : string) : string := value_of (req_params (request c)) key.
Definition FormValue (c : Ctx) (key : string) : string := value_of (req_form (request c)) key.
Definition Cookies (c : Ctx) (key : string) : string := value_of (req_cookies (request c)) key.

(** Modelled from the spec: [c.Cookie(cookie)] attaches a Set-Cookie to
    the response; one of the same name is replaced, otherwise the cookie
    is appended. *)
Fixpoint put_cookie (ck : Cookie) (l : list Cookie) : list Cookie :=
  match l with
  | [] => [ck]
  | old :: l' =>
      if String.eqb (Name old) (Name ck) then ck :: l' else old :: put_cookie ck l'
  end.

Definition Cookie_ (c : Ctx) (ck : Cookie) : Ctx :=
  {| request := request c; set_cookies := put_cookie ck (set_cookies c);
     vary := vary c; locals := locals c |}.

(** Modelled from the spec: [c.Vary(field)] marks the response as
    varying on the field, which is appended to the Vary header unless it
    is listed already. *)
Definition Vary (c : Ctx) (field : string) : Ctx :=
  {| request := request c; set_cookies := set_cookies c;
     vary := if bool_decide (field ∈ vary c) then vary c else vary c ++ [field];
     locals := locals c |}.

(** Modelled from the spec: [c.Locals(key, value)] fills the
    request-scoped slot [key]. *)
Definition Locals (c : Ctx) (key value : string) : Ctx :=
  {| request := request c; set_cookies := set_cookies c;
     vary := vary c; locals := <[key := value]> (locals c) |}.

(** [fiber.Storage]: the interface value held by the configuration.  The
    contents of the object behind it live in the world. *)
Variant Storage := CustomStorage | MemoryStorage.
End fiber.

Module memory.
(** [memory.New()] *)
Definition New : fiber.Storage := fiber.MemoryStorage.
End memory.

(** ** Package csrf *)

Module csrf.
Import fiber.

(** [Config] (declared in config.go), with the fields [New] reads.
    [Next] is [None] for a nil predicate.  [KeyGenerator] is a Go
    [func() string]; its successive results are indexed by the number of
    calls made so far. *)
Record Config := {
  Next : option (Ctx -> bool);
  KeyLookup : string;
  CookieName : string;
  CookieDomain : string;
  CookiePath : string;
  CookieSecure : bool;
  CookieHTTPOnly : bool;
  CookieSameSite : string;
  Expiration : time.Duration;
  Storage : option fiber.Storage;
  ContextKey : string;
  KeyGenerator : nat -> string
}.

Definition with_Storage (cfg : Config) (s : fiber.Storage) : Config :=
  {| Next := Next cfg; KeyLookup := KeyLookup cfg; CookieName := CookieName cfg;
     CookieDomain := CookieDomain cfg; CookiePath := CookiePath cfg;
     CookieSecure := CookieSecure cfg; CookieHTTPOnly := CookieHTTPOnly cfg;
     CookieSameSite := CookieSameSite cfg; Expiration := Expiration cfg;
     Storage := Some s; ContextKey := ContextKey cfg;
     KeyGenerator := KeyGenerator cfg |}.

(** *** The world outside the context *)

(** The token store maps a token to a placeholder, so its state is the
    set of tokens that are valid now. *)
Abbreviation TokenStore := (gset string).

Variant StoreOp := OpGet (token : string) | OpSet (token : string) | OpDelete (token : string).

(** [tokens]: contents of the object behind [cfg.Storage];
    [store_log]: the calls made on it, oldest first;
    [keygen_calls]: how often the key generator has run;
    [clock]: what [time.Now()] reads. *)
Record World := {
  tokens : TokenStore;
  store_log : list StoreOp;
  keygen_calls : nat;
  clock : time.Time
}.

Record State := { ctx : Ctx; world : World }.

(** *** State monad of a request *)

Definition M (A : Type) : Type := State -> A * State.

Definition ret {A} (a : A) : M A := fun st => (a, st).
Definition bind {A B} (m : M A) (k : A -> M B) : M B :=
  fun st => let (a, st') := m st in k a st'.

Declare Scope go_scope.
Delimit Scope go_scope with go.
Notation "x <- m ;; k" := (bind m (fun x => k))
  (at level 100, m at next level, right associativity) : go_scope.
Notation "m ;; k" := (bind m (fun _ => k))
  (at level 100, right associativity) : go_scope.
Local Open Scope go_scope.

(** Reading from and acting on the context [c]. *)
Definition ask {A} (f : Ctx -> A) : M A := fun st => (f (ctx st), st).
Definition act (f : Ctx -> Ctx) : M unit :=
  fun st => (tt, {| ctx := f (ctx st); world := world st |}).

Definition on_world (f : World -> World) : M unit :=
  fun st => (tt, {| ctx := ctx st; world := f (world st) |}).

(** [time.Now()] *)
Definition Now : M time.Time := fun st => (clock (world st), st).

(** [cfg.KeyGenerator()] *)
Definition generate (cfg : Config) : M string :=
  fun st =>
    let w := world st in
    (KeyGenerator cfg (keygen_calls w),
     {| ctx := ctx st;
        world := {| tokens := tokens w; store_log := store_log w;
                    keygen_calls := S (keygen_calls w); clock := clock w |} |}).

(** What a handler returns: the result of [c.Next()], or an error of
    its own. *)
Variant Outcome := Continue | Reject (e : fiber.Error).

(** [c.Next()] hands the context to the next handler of the stack. *)
Definition c_Next : M Outcome := ret Continue.

(** *** The storage handle *)

(** The [storage] struct the handler builds for each request. *)
Record storage := { cfg_ : Config; entries : gmap string (list Byte.byte) }.

(** The contract of the token store: whether the token is valid now. *)
Definition contains (s : TokenStore) (token : string) : bool :=
  bool_decide (token ∈ s).

Definition logged (op : StoreOp) (f : TokenStore -> TokenStore) (w : World) : World :=
  {| tokens := f (tokens w); store_log := (store_log w ++ [op])%list;
     keygen_calls := keygen_calls w; clock := clock w |}.

(** Modelled from the spec: the method [set] of [storage], whose
    declaration is not part of the sources at hand.  It records the
    token as valid, unconditionally, and returns nothing. *)
Definition set (store : storage) (token : string) : M unit :=
  on_world (logged (OpSet token) (fun s => {[token]} ∪ s)).

(** Modelled from the spec: the method [get] of [storage], whose
    declaration is not part of the sources at hand.  It performs the
    check of the verify path, which does not change the store: the
    answer [true] is the one that triggers the rejection, and that is
    the store miss, not the store hit (the caller's words for it are
    "we have a problem extracting the csrf token from Storage"). *)
Definition get (store : storage) (token : string) : M bool :=
  fun st =>
    (negb (contains (tokens (world st)) token),
     {| ctx := ctx st; world := logged (OpGet token) (fun s => s) (world st) |}).

(** Modelled from the spec: the method [delete] of [storage], whose
    declaration is not part of the sources at hand.  It removes the
    token; removing an absent token is not an error. *)
Definition delete (store : storage) (token : string) : M unit :=
  on_world (logged (OpDelete token) (fun s => s ∖ {[token]})).

(** *** Extractors *)

Definition errMissingHeader := errors.New "missing csrf token in header".
Definition errMissingQuery := errors.New "missing csrf token in query".
Definition errMissingParam := errors.New "missing csrf token in param".
Definition errMissingForm := errors.New "missing csrf token in form".
Definition errMissingCookie := errors.New "missing csrf token in cookie".

(** [func(c *fiber.Ctx) (string, error)]; a nil error is [None]. *)
Definition Extractor := Ctx -> string * option errors.error.

Definition csrfFromHeader (param : string) : Extractor :=
  fun c =>
    let token := Get c param in
    if String.eqb token "" then ("", Some errMissingHeader) else (token, None).

Definition csrfFromQuery (param : string) : Extractor :=
  fun c =>
    let token := Query c param in
    if String.eqb token "" then ("", Some errMissingQuery) else (token, None).

Definition csrfFromParam (param : string) : Extractor :=
  fun c =>
    let token := Params c param in
    if String.eqb token "" then ("", Some errMissingParam) else (token, None).

Definition csrfFromForm (param : string) : Extractor :=
  fun c =>
    let token := FormValue c param in
    if String.eqb token "" then ("", Some errMissingForm) else (token, None).

Definition csrfFromCookie (param : string) : Extractor :=
  fun c =>
    let token := Cookies c param in
    if String.eqb token "" then ("", Some errMissingCookie) else (token, None).

(** *** The handler *)

(** What [New] gives: it panics with a message, or returns the handler. *)
Variant Init := Panic (msg : string) | Handler (h : M Outcome).

Definition is_unsafe (method : string) : bool :=
  String.eqb method MethodPost || String.eqb method MethodDelete
  || String.eqb method MethodPatch || String.eqb method MethodPut.

(** The closure returned by [New], over the configuration and the
    extractor it captures.  Each arm of the [switch] either leaves the
    handler with an error ([inl]) or falls through with the token
    ([inr]); a method without a case falls through with the empty
    token. *)
Definition handler (cfg : Config) (extractor : Extractor) : M Outcome :=
  skip <- ask (fun c => match Next cfg with Some next => next c | None => false end) ;;
  if skip : bool then c_Next else
  let store := {| cfg_ := cfg; entries := ∅ |} in
  method <- ask Method ;;
  arm <-
    (if String.eqb method MethodGet then
       token <- ask (fun c => Cookies c (CookieName cfg)) ;;
       token <- (if String.eqb token "" then
                   token <- generate cfg ;;
                   set store token ;;
                   ret token
                 else ret token) ;;
       now <- Now ;;
       let cookie := {| Name := CookieName cfg;
                        Value := token;
                        Domain := CookieDomain cfg;
                        Path := CookiePath cfg;
                        Expires := time.Add now (Expiration cfg);
                        Secure := CookieSecure cfg;
                        HTTPOnly := CookieHTTPOnly cfg;
                        SameSite := CookieSameSite cfg |} in
       act (fun c => Cookie_ c cookie) ;;
       ret (inr token)
     else if is_unsafe method then
       r <- ask extractor ;;
       let (token, err) := r : string * option errors.error in
       match err with
       | Some _ => ret (inl ErrForbidden)
       | None =>
           problem <- get store token ;;
           if problem : bool then
             delete store token ;;
             now <- Now ;;
             act (fun c => Cookie_ c {| Name := CookieName cfg;
                                        Value := "";
                                        Domain := CookieDomain cfg;
                                        Path := CookiePath cfg;
                                        Expires := time.Add now (-1 * time.Minute);
                                        Secure := CookieSecure cfg;
                                        HTTPOnly := CookieHTTPOnly cfg;
                                        SameSite := CookieSameSite cfg |}) ;;
             ret (inl ErrForbidden)
           else ret (inr token)
       end
     else ret (inr "")) ;;
  match arm : fiber.Error + string with
  | inl e => ret (Reject e)
  | inr token =>
      act (fun c => Vary c HeaderCookie) ;;
      (if negb (String.eqb (ContextKey cfg) "") then
         act (fun c => Locals c (ContextKey cfg) token)
       else ret tt) ;;
      c_Next
  end.

Section New.
(** [configDefault] (config.go) fills in the defaults of the optional
    [Config] argument; [textproto.CanonicalMIMEHeaderKey] is Go's. *)
Variable configDefault : list Config -> Config.
Variable CanonicalMIMEHeaderKey : string -> string.

Definition New (config : list Config) : Init :=
  let cfg := configDefault config in
  let cfg := match Storage cfg with
             | None => with_Storage cfg memory.New
             | Some _ => cfg
             end in
  let selectors := gostrings.Split (KeyLookup cfg) ":" in
  match selectors with
  | [source; key] =>
      let extractor := csrfFromHeader (CanonicalMIMEHeaderKey key) in
      let selected : string + Extractor :=
        if String.eqb source "form" then inr (csrfFromForm key)
        else if String.eqb source "query" then inr (csrfFromQuery key)
        else if String.eqb source "param" then inr (csrfFromParam key)
        else if String.eqb source "cookie" then
          if String.eqb key (CookieName cfg) then
            inl ("KeyLookup key " ++ key ++ " can't be the same as CookieName "
                 ++ CookieName cfg)
          else inr (csrfFromCookie key)
        else inr extractor in
      match selected with
      | inl msg => Panic msg
      | inr extractor => Handler (handler cfg extractor)
      end
  | _ => Panic "[CSRF] KeyLookup must in the form of <source>:<key>"
  end.
End New.
End csrf.

(** ** Vocabulary of the properties *)

Import fiber csrf.

(** The request skips the middleware: [Next] is set and answers true. *)
Definition bypassed (cfg : Config) (c : Ctx) : bool :=
  match Next cfg with
  | Some next => next c
  | None => false
  end.

Definition unsafe_methods : list string :=
  [MethodPost; MethodPut; MethodPatch; MethodDelete].

Definition known_methods : list string := MethodGet :: unsafe_methods.

Definition source_keywords : list string := ["form"; "query"; "param"; "cookie"].

(** The handler applied to a context as it arrives and a world. *)
Definition serve (h : M Outcome) (c : Ctx) (w : World) : Outcome * State :=
  h {| ctx := c; world := w |}.

(** The configuration the handler captures: the defaults filled in and
    the storage never nil. *)
Definition effective (cfg : Config) : Config :=
  match Storage cfg with
  | None => with_Storage cfg memory.New
  | Some _ => cfg
  end.

(** The cookie that issues or re-sends [token]. *)
Definition issue_cookie (cfg : Config) (now : time.Time) (token : string) : Cookie :=
  {| Name := CookieName cfg; Value := token; Domain := CookieDomain cfg;
     Path := CookiePath cfg; Expires := time.Add now (Expiration cfg);
     Secure := CookieSecure cfg; HTTPOnly := CookieHTTPOnly cfg;
     SameSite := CookieSameSite cfg |}.

(** The cookie that makes the client drop its token. *)
Definition expire_cookie (cfg : Config) (now : time.Time) : Cookie :=
  {| Name := CookieName cfg; Value := ""; Domain := CookieDomain cfg;
     Path := CookiePath cfg; Expires := time.Add now (-1 * time.Minute);
     Secure := CookieSecure cfg; HTTPOnly := CookieHTTPOnly cfg;
     SameSite := CookieSameSite cfg |}.

(** The context after the [switch]: Vary set, the token in the locals
    when a context key is configured. *)
Definition pass_on (cfg : Config) (token : string) (c : Ctx) : Ctx :=
  let c := Vary c HeaderCookie in
  if String.eqb (ContextKey cfg) "" then c else Locals c (ContextKey cfg) token.

(** ** Sample configuration and requests *)

Module sample.
Definition cfg : Config :=
  {| Next := None; KeyLookup := "header:X-Csrf-Token"; CookieName := "csrf_";
     CookieDomain := ""; CookiePath := "/"; CookieSecure := false;
     CookieHTTPOnly := true; CookieSameSite := "Lax";
     Expiration := 3600 * time.Second; Storage := Some memory.New;
     ContextKey := "token";
     KeyGenerator := fun n => String (ascii_of_nat (65 + n)) "" |}.

Definition skipping : Config :=
  {| Next := Some (fun _ => true); KeyLookup := KeyLookup cfg;
     CookieName := CookieName cfg; CookieDomain := CookieDomain cfg;
     CookiePath := CookiePath cfg; CookieSecure := CookieSecure cfg;
     CookieHTTPOnly := CookieHTTPOnly cfg; CookieSameSite := CookieSameSite cfg;
     Expiration := Expiration cfg; Storage := Storage cfg;
     ContextKey := ContextKey cfg; KeyGenerator := KeyGenerator cfg |}.

Definition looking_up (lookup : string) : Config :=
  {| Next := None; KeyLookup := lookup;
     CookieName := CookieName cfg; CookieDomain := CookieDomain cfg;
     CookiePath := CookiePath cfg; CookieSecure := CookieSecure cfg;
     CookieHTTPOnly := CookieHTTPOnly cfg; CookieSameSite := CookieSameSite cfg;
     Expiration := Expiration cfg; Storage := None;
     ContextKey := ContextKey cfg; KeyGenerator := KeyGenerator cfg |}.

(** A [configDefault] that takes the first configuration given. *)
Definition configDefault (config : list Config) : Config :=
  match config with
  | c :: _ => c
  | [] => cfg
  end.

Definition extractor : Extractor := csrfFromHeader "X-Csrf-Token".

Definition arriving (method : string) (headers cookies : list (string * string)) : Ctx :=
  {| request := {| req_method := method; req_headers := list_to_map headers;
                   req_query := ∅; req_params := ∅; req_form := ∅;
                   req_cookies := list_to_map cookies |};
     set_cookies := []; vary := []; locals := ∅ |}.

Definition holding (valid : list string) : World :=
  {| tokens := list_to_set valid; store_log := []; keygen_calls := 0; clock := 1000 |}.
End sample.

(** ** The five sources, the runs of the handler and sessions *)

(** The location a built-in extractor reads. *)
Variant Source := FromHeader | FromQuery | FromParam | FromForm | FromCookie.

Definition extractor_of (src : Source) (param : string) : Extractor :=
  match src with
  | FromHeader => csrfFromHeader param
  | FromQuery => csrfFromQuery param
  | FromParam => csrfFromParam param
  | FromForm => csrfFromForm param
  | FromCookie => csrfFromCookie param
  end.

(** What the request holds at that location. *)
Definition located (src : Source) (c : Ctx) (param : string) : string :=
  match src with
  | FromHeader => Get c param
  | FromQuery => Query c param
  | FromParam => Params c param
  | FromForm => FormValue c param
  | FromCookie => Cookies c param
  end.

Definition missing (src : Source) : errors.error :=
  match src with
  | FromHeader => errMissingHeader
  | FromQuery => errMissingQuery
  | FromParam => errMissingParam
  | FromForm => errMissingForm
  | FromCookie => errMissingCookie
  end.

(** The source keyword of KeyLookup. *)
Definition keyword (src : Source) : string :=
  match src with
  | FromHeader => "header"
  | FromQuery => "query"
  | FromParam => "param"
  | FromForm => "form"
  | FromCookie => "cookie"
  end.

(** The key the extractor of [New] is built on: the header key goes
    through [CanonicalMIMEHeaderKey], the others are taken as written. *)
Definition key_of (canonical : string -> string) (src : Source) (key : string) : string :=
  match src with
  | FromHeader => canonical key
  | _ => key
  end.

(** How often the byte [sep] occurs in [s]. *)
Fixpoint count_sep (s : string) (sep : ascii) : nat :=
  match s with
  | EmptyString => 0%nat
  | String ch rest => ((if Ascii.eqb ch sep then 1 else 0) + count_sep rest sep)%nat
  end.


(** The runs of the handler, one rule for each way through it. *)
Inductive served (cfg : Config) (extractor : Extractor) (c : Ctx) (w : World) :
    Outcome -> State -> Prop :=
| served_skipped :
    bypassed cfg c = true ->
    served cfg extractor c w Continue {| ctx := c; world := w |}
| served_issue :
    bypassed cfg c = false ->
    Method c = MethodGet ->
    Cookies c (CookieName cfg) = "" ->
    served cfg extractor c w Continue
      {| ctx := pass_on cfg (KeyGenerator cfg (keygen_calls w))
                  (Cookie_ c (issue_cookie cfg (clock w)
                                (KeyGenerator cfg (keygen_calls w))));
         world := {| tokens := {[KeyGenerator cfg (keygen_calls w)]} ∪ tokens w;
                     store_log := (store_log w
                                   ++ [OpSet (KeyGenerator cfg (keygen_calls w))])%list;
                     keygen_calls := S (keygen_calls w);
                     clock := clock w |} |}
| served_reuse :
    bypassed cfg c = false ->
    Method c = MethodGet ->
    Cookies c (CookieName cfg) ≠ "" ->
    served cfg extractor c w Continue
      {| ctx := pass_on cfg (Cookies c (CookieName cfg))
                  (Cookie_ c (issue_cookie cfg (clock w) (Cookies c (CookieName cfg))));
         world := w |}
| served_no_token (token : string) (err : errors.error) :
    bypassed cfg c = false ->
    Method c ∈ unsafe_methods ->
    extractor c = (token, Some err) ->
    served cfg extractor c w (Reject ErrForbidden) {| ctx := c; world := w |}
| served_hit (token : string) :
    bypassed cfg c = false ->
    Method c ∈ unsafe_methods ->
    extractor c = (token, None) ->
    contains (tokens w) token = true ->
    served cfg extractor c w Continue
      {| ctx := pass_on cfg token c; world := logged (OpGet token) (fun s => s) w |}
| served_miss (token : string) :
    bypassed cfg c = false ->
    Method c ∈ unsafe_methods ->
    extractor c = (token, None) ->
    contains (tokens w) token = false ->
    served cfg extractor c w (Reject ErrForbidden)
      {| ctx := Cookie_ c (expire_cookie cfg (clock w));
         world := logged (OpDelete token) (fun s => s ∖ {[token]})
                    (logged (OpGet token) (fun s => s) w) |}
| served_other :
    bypassed cfg c = false ->
    Method c ∉ known_methods ->
    served cfg extractor c w Continue {| ctx := pass_on cfg "" c; world := w |}.

(** A session: the requests are served one after the other, each with
    its own context, and the world of one is the world the next finds. *)
Fixpoint session (h : M Outcome) (requests : list Ctx) (w : World) : World :=
  match requests with
  | [] => w
  | c :: rest => session h rest (world (snd (serve h c w)))
  end.

(** ** The arms of the handler, one equation each *)

(** [step] runs the handler symbolically; [by_eq H] decides the next
    test with the equation [H]. *)
Ltac step :=
  unfold serve, handler, bind, ask, act, ret, c_Next, Now, generate, set, get,
    delete, on_world; cbn [ctx world].
Ltac by_eq H := rewrite H; cbn [ctx world].

Section Arms.
Variables (cfg : Config) (extractor : Extractor) (c : Ctx) (w : World).

Lemma is_unsafe_spec (method : string) :
  is_unsafe method = true <-> method ∈ unsafe_methods.
Proof.
  unfold is_unsafe, unsafe_methods.
  rewrite !orb_true_iff, !String.eqb_eq, !elem_of_cons, elem_of_nil.
  tauto.
Qed.

Lemma unsafe_not_get (method : string) :
  method ∈ unsafe_methods -> String.eqb method MethodGet = false.
Proof.
  unfold unsafe_methods.
  rewrite !elem_of_cons, elem_of_nil.
  intros [-> | [-> | [-> | [-> | []]]]]; reflexivity.
Qed.

Hypothesis Hhandled : bypassed cfg c = false.

Lemma serve_get_fresh :
  Method c = MethodGet ->
  Cookies c (CookieName cfg) = "" ->
  let token := KeyGenerator cfg (keygen_calls w) in
  serve (handler cfg extractor) c w =
    (Continue,
     {| ctx := pass_on cfg token (Cookie_ c (issue_cookie cfg (clock w) token));
        world := {| tokens := {[token]} ∪ tokens w;
                    store_log := (store_log w ++ [OpSet token])%list;
                    keygen_calls := S (keygen_calls w);
                    clock := clock w |} |}).
Proof.
  unfold bypassed in Hhandled. intros Hm Hck. step.
  by_eq Hhandled. by_eq Hm. cbn. by_eq Hck. cbn.
  unfold pass_on. destruct (String.eqb (ContextKey cfg) ""); reflexivity.
Qed.

Lemma serve_get_reuse :
  Method c = MethodGet ->
  Cookies c (CookieName cfg) <> "" ->
  let token := Cookies c (CookieName cfg) in
  serve (handler cfg extractor) c w =
    (Continue,
     {| ctx := pass_on cfg token (Cookie_ c (issue_cookie cfg (clock w) token));
        world := w |}).
Proof.
  unfold bypassed in Hhandled. intros Hm Hck. step.
  apply String.eqb_neq in Hck.
  by_eq Hhandled. by_eq Hm. cbn. by_eq Hck. cbn.
  unfold pass_on. destruct (String.eqb (ContextKey cfg) ""); reflexivity.
Qed.

Lemma serve_unsafe_no_token (token : string) (err : errors.error) :
  Method c ∈ unsafe_methods ->
  extractor c = (token, Some err) ->
  serve (handler cfg extractor) c w =
    (Reject ErrForbidden, {| ctx := c; world := w |}).
Proof.
  unfold bypassed in Hhandled. intros Hm Hex. step.
  by_eq Hhandled. by_eq (unsafe_not_get _ Hm).
  apply is_unsafe_spec in Hm. by_eq Hm. by_eq Hex. reflexivity.
Qed.

Lemma serve_unsafe_hit (token : string) :
  Method c ∈ unsafe_methods ->
  extractor c = (token, None) ->
  contains (tokens w) token = true ->
  serve (handler cfg extractor) c w =
    (Continue,
     {| ctx := pass_on cfg token c;
        world := logged (OpGet token) (fun s => s) w |}).
Proof.
  unfold bypassed in Hhandled. intros Hm Hex Hin. step.
  by_eq Hhandled. by_eq (unsafe_not_get _ Hm).
  apply is_unsafe_spec in Hm. by_eq Hm. by_eq Hex. by_eq Hin. cbn.
  unfold pass_on. destruct (String.eqb (ContextKey cfg) ""); reflexivity.
Qed.

Lemma serve_unsafe_miss (token : string) :
  Method c ∈ unsafe_methods ->
  extractor c = (token, None) ->
  contains (tokens w) token = false ->
  serve (handler cfg extractor) c w =
    (Reject ErrForbidden,
     {| ctx := Cookie_ c (expire_cookie cfg (clock w));
        world := logged (OpDelete token) (fun s => s ∖ {[token]})
                   (logged (OpGet token) (fun s => s) w) |}).
Proof.
  unfold bypassed in Hhandled. intros Hm Hex Hin. step.
  by_eq Hhandled. by_eq (unsafe_not_get _ Hm).
  apply is_unsafe_spec in Hm. by_eq Hm. by_eq Hex. by_eq Hin. reflexivity.
Qed.

Lemma serve_other_method :
  Method c ∉ known_methods ->
  serve (handler cfg extractor) c w =
    (Continue, {| ctx := pass_on cfg "" c; world := w |}).
Proof.
  unfold bypassed in Hhandled. intros Hm. step.
  assert (String.eqb (Method c) MethodGet = false) as Hget.
  { apply String.eqb_neq. intros Heq. apply Hm. rewrite Heq. apply list_elem_of_here. }
  assert (is_unsafe (Method c) = false) as Hun.
  { apply not_true_is_false. intros Hy. apply is_unsafe_spec in Hy.
    apply Hm. unfold known_methods. by apply list_elem_of_further. }
  by_eq Hhandled. by_eq Hget. by_eq Hun. cbn.
  unfold pass_on. destruct (String.eqb (ContextKey cfg) ""); reflexivity.
Qed.
End Arms.

(** ** When the extractors fail *)

Section Extractors.
Variables (param : string) (c : Ctx).

Local Ltac fails_iff_empty :=
  match goal with
  | |- context [String.eqb ?value ""] =>
      destruct (String.eqb_spec value "") as [Hempty | Hfull];
      [rewrite Hempty; split; eauto
      | split; [intros (? & ? & [= _ ?]); discriminate | done]]
  end.

Lemma csrfFromHeader_fails :
  (∃ token err, csrfFromHeader param c = (token, Some err)) <-> Get c param = "".
Proof. unfold csrfFromHeader. fails_iff_empty. Qed.

Lemma csrfFromQuery_fails :
  (∃ token err, csrfFromQuery param c = (token, Some err)) <-> Query c param = "".
Proof. unfold csrfFromQuery. fails_iff_empty. Qed.

Lemma csrfFromParam_fails :
  (∃ token err, csrfFromParam param c = (token, Some err)) <-> Params c param = "".
Proof. unfold csrfFromParam. fails_iff_empty. Qed.

Lemma csrfFromForm_fails :
  (∃ token err, csrfFromForm param c = (token, Some err)) <-> FormValue c param = "".
Proof. unfold csrfFromForm. fails_iff_empty. Qed.

Lemma csrfFromCookie_fails :
  (∃ token err, csrfFromCookie param c = (token, Some err)) <-> Cookies c param = "".
Proof. unfold csrfFromCookie. fails_iff_empty. Qed.
End Extractors.

(** ** What the response helpers leave behind *)

Lemma put_cookie_elem (ck : Cookie) (l : list Cookie) : ck ∈ put_cookie ck l.
Proof.
  induction l as [| old l IH]; cbn [put_cookie].
  - apply list_elem_of_here.
  - destruct (String.eqb (Name old) (Name ck)).
    + apply list_elem_of_here.
    + by apply list_elem_of_further.
Qed.

Lemma pass_on_set_cookies (cfg : Config) (token : string) (c : Ctx) :
  set_cookies (pass_on cfg token c) = set_cookies c.
Proof. unfold pass_on. by destruct (String.eqb (ContextKey cfg) ""). Qed.

Lemma pass_on_request (cfg : Config) (token : string) (c : Ctx) :
  request (pass_on cfg token c) = request c.
Proof. unfold pass_on. by destruct (String.eqb (ContextKey cfg) ""). Qed.

Lemma pass_on_vary (cfg : Config) (token : string) (c : Ctx) :
  HeaderCookie ∈ vary (pass_on cfg token c).
Proof.
  unfold pass_on.
  assert (HeaderCookie ∈ vary (Vary c HeaderCookie)) as Hin.
  { unfold Vary; cbn [vary]. case_bool_decide as Hc; [done |].
    apply elem_of_app. right. apply list_elem_of_here. }
  by destruct (String.eqb (ContextKey cfg) "").
Qed.

Lemma pass_on_locals (cfg : Config) (token : string) (c : Ctx) :
  locals (pass_on cfg token c) =
    if String.eqb (ContextKey cfg) "" then locals c
    else <[ContextKey cfg := token]> (locals c).
Proof. unfold pass_on. by destruct (String.eqb (ContextKey cfg) ""). Qed.

Lemma contains_spec (s : TokenStore) (token : string) :
  contains s token = true <-> token ∈ s.
Proof. unfold contains. apply bool_decide_eq_true. Qed.

Lemma expire_cookie_past (cfg : Config) (now : time.Time) :
  Expires (expire_cookie cfg now) < now.
Proof. unfold expire_cookie, time.Add, time.Minute, time.Second, time.Nanosecond. cbn [Expires]. lia. Qed.

(** [New] in terms of the effective configuration. *)
Lemma New_selects (configDefault : list Config -> Config)
    (canonical : string -> string) (config : list Config) (source key : string) :
  gostrings.Split (KeyLookup (configDefault config)) ":" = [source; key] ->
  let cfg := effective (configDefault config) in
  New configDefault canonical config =
    if String.eqb source "form" then Handler (handler cfg (csrfFromForm key))
    else if String.eqb source "query" then Handler (handler cfg (csrfFromQuery key))
    else if String.eqb source "param" then Handler (handler cfg (csrfFromParam key))
    else if String.eqb source "cookie" then
      if String.eqb key (CookieName (configDefault config)) then
        Panic ("KeyLookup key " ++ key ++ " can't be the same as CookieName "
               ++ CookieName (configDefault config))
      else Handler (handler cfg (csrfFromCookie key))
    else Handler (handler cfg (csrfFromHeader (canonical key))).
Proof.
  intros Hsplit. unfold New, effective.
  destruct (Storage (configDefault config)); cbn [KeyLookup with_Storage CookieName];
    rewrite Hsplit;
    repeat (match goal with |- context [String.eqb ?a ?b] =>
              destruct (String.eqb a b) end; try reflexivity).
Qed.

Lemma New_malformed (configDefault : list Config -> Config)
    (canonical : string -> string) (config : list Config) :
  length (gostrings.Split (KeyLookup (configDefault config)) ":") ≠ 2%nat ->
  New configDefault canonical config =
    Panic "[CSRF] KeyLookup must in the form of <source>:<key>".
Proof.
  intros Hlen. unfold New.
  assert (KeyLookup (match Storage (configDefault config) with
                     | Some _ => configDefault config
                     | None => with_Storage (configDefault config) memory.New
                     end) = KeyLookup (configDefault config)) as ->.
  { by destruct (Storage (configDefault config)). }
  destruct (gostrings.Split (KeyLookup (configDefault config)) ":")
    as [| a [| b [| d l]]]; cbn [length] in Hlen; try reflexivity; lia.
Qed.

(** With a two-part KeyLookup, [New] panics on the cookie collision and
    returns a handler otherwise. *)
Lemma New_two_parts (configDefault : list Config -> Config)
    (canonical : string -> string) (config : list Config) (source key : string) :
  gostrings.Split (KeyLookup (configDefault config)) ":" = [source; key] ->
  if decide (source = "cookie" ∧ key = CookieName (configDefault config))
  then ∃ msg, New configDefault canonical config = Panic msg
  else ∃ extractor, New configDefault canonical config
                    = Handler (handler (effective (configDefault config)) extractor).
Proof.
  intros Hparts.
  rewrite (New_selects configDefault canonical config source key Hparts). cbn zeta.
  destruct (decide (source = "cookie" ∧ key = CookieName (configDefault config)))
    as [[-> ->] | Hfree].
  - cbn. rewrite String.eqb_refl. eauto.
  - destruct (String.eqb source "form"); [eauto |].
    destruct (String.eqb source "query"); [eauto |].
    destruct (String.eqb source "param"); [eauto |].
    destruct (String.eqb source "cookie") eqn:Hcookie; [| eauto].
    destruct (String.eqb key (CookieName (configDefault config))) eqn:Hkey; [| eauto].
    apply String.eqb_eq in Hcookie, Hkey. tauto.
Qed.

(** ** The verify path *)

(** C1: an unsafe-method request (POST, PUT, PATCH, DELETE) that the
    middleware handles and whose extracted token is in the token store
    continues to the next handler; the store is only asked about the
    token, which is neither deleted nor replaced (no set, no generated
    token, no cookie), so it is still in the store afterwards and the same
    request presented once more continues as well. *)
Theorem valid_token_continues_and_remains
    (cfg : Config) (extractor : Extractor) (c : Ctx) (w : World) (token : string) :
  bypassed cfg c = false ->
  Method c ∈ unsafe_methods ->
  extractor c = (token, None) ->
  contains (tokens w) token = true ->
  ∃ st, serve (handler cfg extractor) c w = (Continue, st)
        ∧ store_log (world st) = (store_log w ++ [OpGet token])%list
        ∧ tokens (world st) = tokens w
        ∧ keygen_calls (world st) = keygen_calls w
        ∧ set_cookies (ctx st) = set_cookies c
        ∧ contains (tokens (world st)) token = true
        ∧ fst (serve (handler cfg extractor) c (world st)) = Continue.
Proof.
  intros Hhandled Hm Hex Hin.
  eexists. split; [by apply serve_unsafe_hit |].
  cbn [world ctx logged tokens store_log keygen_calls].
  rewrite pass_on_set_cookies.
  repeat split; try done.
  erewrite serve_unsafe_hit; [reflexivity | done..].
Qed.

Lemma valid_token_continues_and_remains_witness :
  ∃ st, serve (handler sample.cfg sample.extractor)
          (sample.arriving "POST" [("X-Csrf-Token", "A")] [("csrf_", "A")])
          (sample.holding ["A"]) = (Continue, st)
        ∧ store_log (world st) = (store_log (sample.holding ["A"]) ++ [OpGet "A"])%list
        ∧ tokens (world st) = tokens (sample.holding ["A"])
        ∧ keygen_calls (world st) = keygen_calls (sample.holding ["A"])
        ∧ set_cookies (ctx st) = []
        ∧ contains (tokens (world st)) "A" = true
        ∧ fst (serve (handler sample.cfg sample.extractor)
                 (sample.arriving "POST" [("X-Csrf-Token", "A")] [("csrf_", "A")])
                 (world st)) = Continue.
Proof.
  apply (valid_token_continues_and_remains sample.cfg sample.extractor
           (sample.arriving "POST" [("X-Csrf-Token", "A")] [("csrf_", "A")])
           (sample.holding ["A"]) "A").
  - reflexivity.
  - apply list_elem_of_here.
  - vm_compute. reflexivity.
  - vm_compute. reflexivity.
Defined.

(** C2: an unsafe-method request that the middleware handles and whose
    extracted token is not in the token store is rejected with 403
    Forbidden; the store is asked about the token and then told to delete
    it, a later [contains] of it is false, and the response carries a
    cookie of the CSRF cookie's name whose expiry lies before now. *)
Theorem unknown_token_rejected_and_expired
    (cfg : Config) (extractor : Extractor) (c : Ctx) (w : World) (token : string) :
  bypassed cfg c = false ->
  Method c ∈ unsafe_methods ->
  extractor c = (token, None) ->
  contains (tokens w) token = false ->
  ∃ st, serve (handler cfg extractor) c w = (Reject ErrForbidden, st)
        ∧ Code ErrForbidden = 403
        ∧ store_log (world st) = (store_log w ++ [OpGet token; OpDelete token])%list
        ∧ contains (tokens (world st)) token = false
        ∧ ∃ ck, ck ∈ set_cookies (ctx st)
                ∧ Name ck = CookieName cfg
                ∧ Expires ck < clock w.
Proof.
  intros Hhandled Hm Hex Hout.
  eexists. split; [by apply serve_unsafe_miss |].
  cbn [world ctx logged tokens store_log Cookie_ set_cookies].
  split; [reflexivity |]. split; [by rewrite <- app_assoc |]. split.
  - apply not_true_is_false. rewrite contains_spec.
    rewrite elem_of_difference, elem_of_singleton. tauto.
  - exists (expire_cookie cfg (clock w)).
    split; [apply put_cookie_elem |]. split; [reflexivity |].
    apply expire_cookie_past.
Qed.

Lemma unknown_token_rejected_and_expired_witness :
  ∃ st, serve (handler sample.cfg sample.extractor)
          (sample.arriving "POST" [("X-Csrf-Token", "WRONG")] [("csrf_", "A")])
          (sample.holding ["A"]) = (Reject ErrForbidden, st)
        ∧ Code ErrForbidden = 403
        ∧ store_log (world st) = ([] ++ [OpGet "WRONG"; OpDelete "WRONG"])%list
        ∧ contains (tokens (world st)) "WRONG" = false
        ∧ ∃ ck, ck ∈ set_cookies (ctx st) ∧ Name ck = "csrf_" ∧ Expires ck < 1000.
Proof.
  apply (unknown_token_rejected_and_expired sample.cfg sample.extractor
           (sample.arriving "POST" [("X-Csrf-Token", "WRONG")] [("csrf_", "A")])
           (sample.holding ["A"]) "WRONG").
  - reflexivity.
  - apply list_elem_of_here.
  - vm_compute. reflexivity.
  - vm_compute. reflexivity.
Defined.

(** C4: an unsafe-method request that the middleware handles and for
    which the extractor reports an error is rejected with 403 Forbidden
    at once: context and world are as they were, so the store has not
    been asked, written or deleted from, and no cookie has been added. *)
Theorem missing_token_rejected_untouched
    (cfg : Config) (extractor : Extractor) (c : Ctx) (w : World)
    (token : string) (err : errors.error) :
  bypassed cfg c = false ->
  Method c ∈ unsafe_methods ->
  extractor c = (token, Some err) ->
  ∃ st, serve (handler cfg extractor) c w = (Reject ErrForbidden, st)
        ∧ Code ErrForbidden = 403
        ∧ world st = w
        ∧ store_log (world st) = store_log w
        ∧ tokens (world st) = tokens w
        ∧ set_cookies (ctx st) = set_cookies c
        ∧ ctx st = c.
Proof.
  intros Hhandled Hm Hex.
  eexists. split; [by eapply serve_unsafe_no_token |].
  cbn [world ctx]. repeat split.
Qed.

Lemma missing_token_rejected_untouched_witness :
  ∃ st, serve (handler sample.cfg sample.extractor)
          (sample.arriving "DELETE" [] [("csrf_", "A")])
          (sample.holding ["A"]) = (Reject ErrForbidden, st)
        ∧ Code ErrForbidden = 403
        ∧ world st = sample.holding ["A"]
        ∧ store_log (world st) = []
        ∧ tokens (world st) = tokens (sample.holding ["A"])
        ∧ set_cookies (ctx st) = []
        ∧ ctx st = sample.arriving "DELETE" [] [("csrf_", "A")].
Proof.
  apply (missing_token_rejected_untouched sample.cfg sample.extractor
           (sample.arriving "DELETE" [] [("csrf_", "A")])
           (sample.holding ["A"]) "" errMissingHeader).
  - reflexivity.
  - unfold unsafe_methods. rewrite !elem_of_cons. tauto.
  - vm_compute. reflexivity.
Defined.

(** ** The issue path *)

(** C3: a GET request that the middleware handles and that carries no
    token in the CSRF cookie makes the handler call the configured key
    generator once, set the generated token in the store (so [contains]
    of it is true right after) and attach the CSRF cookie with that token
    as its value. *)
Theorem get_without_cookie_issues_token
    (cfg : Config) (extractor : Extractor) (c : Ctx) (w : World) :
  bypassed cfg c = false ->
  Method c = MethodGet ->
  Cookies c (CookieName cfg) = "" ->
  let token := KeyGenerator cfg (keygen_calls w) in
  ∃ st, serve (handler cfg extractor) c w = (Continue, st)
        ∧ keygen_calls (world st) = S (keygen_calls w)
        ∧ store_log (world st) = (store_log w ++ [OpSet token])%list
        ∧ contains (tokens (world st)) token = true
        ∧ ∃ ck, ck ∈ set_cookies (ctx st)
                ∧ Name ck = CookieName cfg
                ∧ Value ck = token.
Proof.
  intros Hhandled Hm Hck token.
  eexists. split; [by apply serve_get_fresh |].
  cbn [world ctx keygen_calls store_log tokens].
  split; [reflexivity |]. split; [reflexivity |]. split.
  - apply contains_spec, elem_of_union. left. by apply elem_of_singleton.
  - exists (issue_cookie cfg (clock w) token).
    rewrite pass_on_set_cookies. cbn [Cookie_ set_cookies].
    split; [apply put_cookie_elem |]. split; reflexivity.
Qed.

Lemma get_without_cookie_issues_token_witness :
  ∃ st, serve (handler sample.cfg sample.extractor)
          (sample.arriving "GET" [] []) (sample.holding []) = (Continue, st)
        ∧ keygen_calls (world st) = 1%nat
        ∧ store_log (world st) = ([] ++ [OpSet "A"])%list
        ∧ contains (tokens (world st)) "A" = true
        ∧ ∃ ck, ck ∈ set_cookies (ctx st) ∧ Name ck = "csrf_" ∧ Value ck = "A".
Proof.
  apply (get_without_cookie_issues_token sample.cfg sample.extractor
           (sample.arriving "GET" [] []) (sample.holding [])).
  - reflexivity.
  - reflexivity.
  - vm_compute. reflexivity.
Defined.

(** C7: a GET request that the middleware handles and that carries a
    token in the CSRF cookie keeps that token: the world is as it was (no
    call on the store, no generated token), and the response carries the
    CSRF cookie with the same token and the expiry now plus Expiration. *)
Theorem get_with_cookie_reuses_token
    (cfg : Config) (extractor : Extractor) (c : Ctx) (w : World) (token : string) :
  bypassed cfg c = false ->
  Method c = MethodGet ->
  Cookies c (CookieName cfg) = token ->
  token ≠ "" ->
  ∃ st, serve (handler cfg extractor) c w = (Continue, st)
        ∧ world st = w
        ∧ store_log (world st) = store_log w
        ∧ tokens (world st) = tokens w
        ∧ ∃ ck, ck ∈ set_cookies (ctx st)
                ∧ Name ck = CookieName cfg
                ∧ Value ck = token
                ∧ Expires ck = clock w + Expiration cfg.
Proof.
  intros Hhandled Hm Hck Hne. subst token.
  eexists. split; [by apply serve_get_reuse |].
  cbn [world ctx]. repeat split.
  exists (issue_cookie cfg (clock w) (Cookies c (CookieName cfg))).
  rewrite pass_on_set_cookies. cbn [Cookie_ set_cookies].
  split; [apply put_cookie_elem |]. repeat split.
Qed.

Lemma get_with_cookie_reuses_token_witness :
  ∃ st, serve (handler sample.cfg sample.extractor)
          (sample.arriving "GET" [] [("csrf_", "Z")]) (sample.holding []) = (Continue, st)
        ∧ world st = sample.holding []
        ∧ store_log (world st) = []
        ∧ tokens (world st) = tokens (sample.holding [])
        ∧ ∃ ck, ck ∈ set_cookies (ctx st)
                ∧ Name ck = "csrf_"
                ∧ Value ck = "Z"
                ∧ Expires ck = 1000 + 3600 * time.Second.
Proof.
  apply (get_with_cookie_reuses_token sample.cfg sample.extractor
           (sample.arriving "GET" [] [("csrf_", "Z")]) (sample.holding []) "Z").
  - reflexivity.
  - reflexivity.
  - vm_compute. reflexivity.
  - discriminate.
Defined.

(** ** Requests outside both paths *)

(** C8: when [Next] is set and answers true, the handler calls the next
    handler with context and world as they arrived, whatever the method
    and whatever the extractor: nothing is generated, extracted, stored or
    checked, no cookie is set and no header is changed. *)
Theorem bypass_leaves_request_alone
    (cfg : Config) (extractor : Extractor) (c : Ctx) (w : World) :
  bypassed cfg c = true ->
  serve (handler cfg extractor) c w = (Continue, {| ctx := c; world := w |}).
Proof.
  unfold bypassed. intros Hskip.
  step. by_eq Hskip. reflexivity.
Qed.

Lemma bypass_leaves_request_alone_witness :
  serve (handler sample.skipping sample.extractor)
    (sample.arriving "POST" [] []) (sample.holding ["A"])
  = (Continue, {| ctx := sample.arriving "POST" [] []; world := sample.holding ["A"] |}).
Proof.
  apply (bypass_leaves_request_alone sample.skipping sample.extractor
           (sample.arriving "POST" [] []) (sample.holding ["A"])).
  reflexivity.
Defined.

(** C10: a request that the middleware handles and whose method is none
    of GET, POST, PUT, PATCH, DELETE continues to the next handler; the
    world is as it was (no token generated, no call on the store), the
    result does not depend on the extractor, no cookie is set, Vary lists
    Cookie, and the locals get the empty string under the context key
    when one is configured and are unchanged otherwise. *)
Theorem other_method_passes_with_vary
    (cfg : Config) (extractor : Extractor) (c : Ctx) (w : World) :
  bypassed cfg c = false ->
  Method c ∉ known_methods ->
  ∃ c', serve (handler cfg extractor) c w = (Continue, {| ctx := c'; world := w |})
        ∧ request c' = request c
        ∧ set_cookies c' = set_cookies c
        ∧ vary c' = vary (Vary c HeaderCookie)
        ∧ HeaderCookie ∈ vary c'
        ∧ locals c' = (if String.eqb (ContextKey cfg) "" then locals c
                       else <[ContextKey cfg := ""]> (locals c)).
Proof.
  intros Hhandled Hm.
  exists (pass_on cfg "" c). split; [by apply serve_other_method |].
  rewrite pass_on_request, pass_on_set_cookies, pass_on_locals.
  repeat split; [| apply pass_on_vary].
  unfold pass_on. by destruct (String.eqb (ContextKey cfg) "").
Qed.

Lemma other_method_passes_with_vary_witness :
  ∃ c', serve (handler sample.cfg sample.extractor)
          (sample.arriving "HEAD" [] []) (sample.holding ["A"])
        = (Continue, {| ctx := c'; world := sample.holding ["A"] |})
        ∧ request c' = request (sample.arriving "HEAD" [] [])
        ∧ set_cookies c' = []
        ∧ vary c' = vary (Vary (sample.arriving "HEAD" [] []) HeaderCookie)
        ∧ HeaderCookie ∈ vary c'
        ∧ locals c' = <["token" := ""]> ∅.
Proof.
  apply (other_method_passes_with_vary sample.cfg sample.extractor
           (sample.arriving "HEAD" [] []) (sample.holding ["A"])).
  - reflexivity.
  - unfold known_methods, unsafe_methods. rewrite !elem_of_cons, elem_of_nil.
    cbn. intuition discriminate.
Defined.

(** ** The Vary header *)

(** C5, as stated, fails: two handled POST requests, one with a token
    the store does not know and one without a token, are rejected and
    their responses list no Cookie field in Vary. *)
Lemma rejection_leaves_vary_unset :
  (bypassed sample.cfg (sample.arriving "POST" [("X-Csrf-Token", "WRONG")] []) = false
   ∧ ∃ st, serve (handler sample.cfg sample.extractor)
             (sample.arriving "POST" [("X-Csrf-Token", "WRONG")] [])
             (sample.holding ["A"]) = (Reject ErrForbidden, st)
           ∧ HeaderCookie ∉ vary (ctx st))
  ∧ (bypassed sample.cfg (sample.arriving "POST" [] []) = false
     ∧ ∃ st, serve (handler sample.cfg sample.extractor)
               (sample.arriving "POST" [] [])
               (sample.holding ["A"]) = (Reject ErrForbidden, st)
             ∧ HeaderCookie ∉ vary (ctx st)).
Proof.
  split; (split; [reflexivity |]); eexists; (split; [vm_compute; reflexivity |]);
    cbn [ctx vary]; apply not_elem_of_nil.
Qed.

(** C5, amended: a request that the middleware handles and passes on to
    the next handler has Cookie listed in Vary; a request it rejects is
    rejected with 403 Forbidden and its Vary header is as it arrived. *)
Theorem vary_cookie_set_when_passed_on
    (cfg : Config) (extractor : Extractor) (c : Ctx) (w : World) :
  bypassed cfg c = false ->
  match serve (handler cfg extractor) c w with
  | (Continue, st) => HeaderCookie ∈ vary (ctx st)
  | (Reject e, st) => e = ErrForbidden ∧ vary (ctx st) = vary c
  end.
Proof.
  intros Hhandled.
  destruct (decide (Method c = MethodGet)) as [Hget | Hget].
  - destruct (decide (Cookies c (CookieName cfg) = "")) as [Hck | Hck].
    + rewrite serve_get_fresh by done. apply pass_on_vary.
    + rewrite serve_get_reuse by done. apply pass_on_vary.
  - destruct (decide (Method c ∈ unsafe_methods)) as [Hun | Hun].
    + destruct (extractor c) as [token [err |]] eqn:Hex.
      * erewrite serve_unsafe_no_token by done. by split.
      * destruct (contains (tokens w) token) eqn:Hin.
        -- erewrite serve_unsafe_hit by done. apply pass_on_vary.
        -- erewrite serve_unsafe_miss by done. by split.
    + rewrite serve_other_method; [apply pass_on_vary | done |].
      unfold known_methods. rewrite elem_of_cons. tauto.
Qed.

Lemma vary_cookie_set_when_passed_on_witness :
  match serve (handler sample.cfg sample.extractor)
          (sample.arriving "PUT" [("X-Csrf-Token", "A")] []) (sample.holding ["A"]) with
  | (Continue, st) => HeaderCookie ∈ vary (ctx st)
  | (Reject e, st) =>
      e = ErrForbidden
      ∧ vary (ctx st) = vary (sample.arriving "PUT" [("X-Csrf-Token", "A")] [])
  end.
Proof.
  apply (vary_cookie_set_when_passed_on sample.cfg sample.extractor
           (sample.arriving "PUT" [("X-Csrf-Token", "A")] []) (sample.holding ["A"])).
  reflexivity.
Defined.

(** ** Initialization *)

(** C6: [New] panics exactly when the KeyLookup of the configuration
    (defaults filled in) does not split at its colons into two parts, or
    splits into the source cookie and a key equal to CookieName; in every
    other case it returns the handler, which has no such failure left to
    report. *)
Theorem New_panics_exactly_on_bad_lookup
    (configDefault : list Config -> Config) (canonical : string -> string)
    (config : list Config) :
  let cfg := configDefault config in
  let parts := gostrings.Split (KeyLookup cfg) ":" in
  let bad := length parts ≠ 2%nat
             ∨ ∃ source key, parts = [source; key]
                             ∧ source = "cookie" ∧ key = CookieName cfg in
  ((∃ msg, New configDefault canonical config = Panic msg) <-> bad)
  ∧ ((∃ extractor, New configDefault canonical config
                   = Handler (handler (effective cfg) extractor)) <-> ¬ bad).
Proof.
  intros cfg parts bad.
  destruct (decide (length parts = 2%nat)) as [Hlen | Hlen].
  - destruct parts as [| source [| key [| x l]]] eqn:Hparts; try discriminate Hlen.
    assert (bad <-> source = "cookie" ∧ key = CookieName cfg) as Hbad.
    { subst bad. split.
      - intros [Hne | (s' & k' & [= <- <-] & Hs & Hk)]; [done | by split].
      - intros [Hs Hk]. right. by exists source, key. }
    pose proof (New_two_parts configDefault canonical config source key Hparts) as Hnew.
    fold cfg in Hnew. rewrite !Hbad.
    destruct (decide (source = "cookie" ∧ key = CookieName cfg)) as [Hhit | Hfree].
    + destruct Hnew as [msg ->]. split; split; eauto.
      * intros [? ?]; discriminate.
      * tauto.
    + destruct Hnew as [extractor ->]. split; split; eauto.
      * intros [? ?]; discriminate.
      * tauto.
  - rewrite (New_malformed configDefault canonical config Hlen).
    assert bad as Hbad by (by left).
    split; split; eauto.
    + intros [? ?]; discriminate.
    + tauto.
Qed.

(** C9: when KeyLookup splits into a source and a key and the source is
    none of form, query, param, cookie, [New] returns the handler over
    the header extractor for the canonical form of the key; and for a
    two-part KeyLookup the only panic is the one of a cookie source whose
    key equals CookieName, so no source keyword is an error by itself. *)
Theorem unrecognized_source_reads_header
    (configDefault : list Config -> Config) (canonical : string -> string)
    (config : list Config) (source key : string) :
  gostrings.Split (KeyLookup (configDefault config)) ":" = [source; key] ->
  (source ∉ source_keywords ->
   New configDefault canonical config
   = Handler (handler (effective (configDefault config))
                (csrfFromHeader (canonical key))))
  ∧ ((∃ msg, New configDefault canonical config = Panic msg) ->
     source = "cookie" ∧ key = CookieName (configDefault config)).
Proof.
  intros Hparts.
  rewrite (New_selects configDefault canonical config source key Hparts).
  cbn zeta. unfold source_keywords. rewrite !elem_of_cons, elem_of_nil.
  destruct (String.eqb source "form") eqn:Hform;
    [apply String.eqb_eq in Hform | apply String.eqb_neq in Hform].
  { split; [tauto | intros [? ?]; discriminate]. }
  destruct (String.eqb source "query") eqn:Hquery;
    [apply String.eqb_eq in Hquery | apply String.eqb_neq in Hquery].
  { split; [tauto | intros [? ?]; discriminate]. }
  destruct (String.eqb source "param") eqn:Hparam;
    [apply String.eqb_eq in Hparam | apply String.eqb_neq in Hparam].
  { split; [tauto | intros [? ?]; discriminate]. }
  destruct (String.eqb source "cookie") eqn:Hcookie;
    [apply String.eqb_eq in Hcookie | apply String.eqb_neq in Hcookie].
  - split; [tauto |].
    destruct (String.eqb key (CookieName (configDefault config))) eqn:Hkey.
    + apply String.eqb_eq in Hkey. by intros _.
    + intros [? ?]; discriminate.
  - split; [reflexivity | intros [? ?]; discriminate].
Qed.

Lemma unrecognized_source_reads_header_witness :
  (("body" : string) ∉ source_keywords ->
   New sample.configDefault (fun key => key) [sample.looking_up "body:X-Csrf-Token"]
   = Handler (handler (effective (sample.looking_up "body:X-Csrf-Token"))
                (csrfFromHeader "X-Csrf-Token")))
  ∧ ((∃ msg, New sample.configDefault (fun key => key)
               [sample.looking_up "body:X-Csrf-Token"] = Panic msg) ->
     "body" = "cookie" ∧ "X-Csrf-Token" = CookieName (sample.looking_up "body:X-Csrf-Token")).
Proof.
  apply (unrecognized_source_reads_header sample.configDefault (fun key => key)
           [sample.looking_up "body:X-Csrf-Token"] "body" "X-Csrf-Token").
  reflexivity.
Defined.

(** ** Worked examples *)

Example split_two_parts :
  gostrings.Split "header:X-Csrf-Token" ":" = ["header"; "X-Csrf-Token"].
Proof. reflexivity. Qed.

Example split_no_colon : gostrings.Split "header" ":" = ["header"].
Proof. reflexivity. Qed.

Example split_three_parts : gostrings.Split "a:b:c" ":" = ["a"; "b"; "c"].
Proof. reflexivity. Qed.

(** KeyLookup "cookie:csrf_" with CookieName "csrf_" stops [New]. *)
Example cookie_collision_panics :
  New sample.configDefault (fun key => key) [sample.looking_up "cookie:csrf_"]
  = Panic "KeyLookup key csrf_ can't be the same as CookieName csrf_".
Proof. reflexivity. Qed.

Example three_parts_panic :
  New sample.configDefault (fun key => key) [sample.looking_up "header:X:Y"]
  = Panic "[CSRF] KeyLookup must in the form of <source>:<key>".
Proof. reflexivity. Qed.

(** With the source query and the key csrf_token, a token in the query
    is found and a token sent in a header is missing. *)
Example query_source_reads_query :
  let in_query :=
    {| request := {| req_method := "POST"; req_headers := ∅;
                     req_query := {["csrf_token" := "T1"]}; req_params := ∅;
                     req_form := ∅; req_cookies := ∅ |};
       set_cookies := []; vary := []; locals := ∅ |} in
  csrfFromQuery "csrf_token" in_query = ("T1", None)
  ∧ csrfFromQuery "csrf_token" (sample.arriving "POST" [("csrf_token", "T1")] [])
    = ("", Some errMissingQuery).
Proof. split; vm_compute; reflexivity. Qed.

(** The issue sequence: GET without cookie sets the cookie to the
    generated token A; POST with A in the header proceeds; POST with
    another token is rejected and the cookie is expired. *)
Example issue_then_verify :
  let '(o1, st1) := serve (handler sample.cfg sample.extractor)
                      (sample.arriving "GET" [] []) (sample.holding []) in
  let '(o2, st2) := serve (handler sample.cfg sample.extractor)
                      (sample.arriving "POST" [("X-Csrf-Token", "A")] [("csrf_", "A")])
                      (world st1) in
  let '(o3, st3) := serve (handler sample.cfg sample.extractor)
                      (sample.arriving "POST" [("X-Csrf-Token", "WRONG")] [("csrf_", "A")])
                      (world st2) in
  (o1, Value <$> set_cookies (ctx st1)) = (Continue, ["A"])
  ∧ o2 = Continue
  ∧ (o3, Expires <$> set_cookies (ctx st3)) = (Reject ErrForbidden, [1000 - 60000000000])
  ∧ store_log (world st3) = [OpSet "A"; OpGet "A"; OpGet "WRONG"; OpDelete "WRONG"].
Proof. vm_compute. repeat split. Qed.

(** ** Every run of the handler follows one of the rules *)

Lemma serve_skipped (cfg : Config) (extractor : Extractor) (c : Ctx) (w : World) :
  bypassed cfg c = true ->
  serve (handler cfg extractor) c w = (Continue, {| ctx := c; world := w |}).
Proof.
  unfold bypassed. intros Hskip.
  step. by_eq Hskip. reflexivity.
Qed.

Lemma serve_served (cfg : Config) (extractor : Extractor) (c : Ctx) (w : World) :
  served cfg extractor c w
    (fst (serve (handler cfg extractor) c w))
    (snd (serve (handler cfg extractor) c w)).
Proof.
  destruct (bypassed cfg c) eqn:Hskip.
  { rewrite serve_skipped by done. by constructor. }
  destruct (decide (Method c = MethodGet)) as [Hget | Hget].
  - destruct (decide (Cookies c (CookieName cfg) = "")) as [Hck | Hck].
    + rewrite serve_get_fresh by done. by apply served_issue.
    + rewrite serve_get_reuse by done. by apply served_reuse.
  - destruct (decide (Method c ∈ unsafe_methods)) as [Hun | Hun].
    + destruct (extractor c) as [token [err |]] eqn:Hex.
      * erewrite serve_unsafe_no_token by done. by eapply served_no_token.
      * destruct (contains (tokens w) token) eqn:Hin.
        -- erewrite serve_unsafe_hit by done. by apply served_hit.
        -- erewrite serve_unsafe_miss by done. by apply served_miss.
    + assert (Method c ∉ known_methods) as Hother.
      { unfold known_methods. rewrite elem_of_cons. tauto. }
      rewrite serve_other_method by done. by apply served_other.
Qed.

Lemma get_is_not_unsafe (c : Ctx) : Method c = MethodGet -> Method c ∉ unsafe_methods.
Proof.
  intros Hget Hun. apply unsafe_not_get in Hun. rewrite Hget in Hun. discriminate.
Qed.

(** ** Outcomes *)



(** ** Calls on the store and on the key generator *)

(** X2: one request makes the handler call the store in one of four
    ways and no other: not at all; one set, of the token the generator
    just gave, on a GET; one get, on an unsafe request that is passed on;
    or a get followed by a delete of the same token, on an unsafe request
    that is rejected. *)
Theorem store_calls_of_one_request
    (cfg : Config) (extractor : Extractor) (c : Ctx) (w : World) :
  let run := serve (handler cfg extractor) c w in
  ∃ calls, store_log (world (snd run)) = (store_log w ++ calls)%list
    ∧ (calls = []
       ∨ (calls = [OpSet (KeyGenerator cfg (keygen_calls w))]
          ∧ Method c = MethodGet ∧ fst run = Continue)
       ∨ (∃ token, calls = [OpGet token]
                   ∧ Method c ∈ unsafe_methods ∧ fst run = Continue)
       ∨ (∃ token, calls = [OpGet token; OpDelete token]
                   ∧ Method c ∈ unsafe_methods ∧ fst run = Reject ErrForbidden)).
Proof.
  cbn zeta. destruct (serve_served cfg extractor c w);
    cbn [world store_log logged].
  - exists []. split; [by rewrite app_nil_r | by left].
  - eexists. split; [reflexivity |]. right. left. done.
  - exists []. split; [by rewrite app_nil_r | by left].
  - exists []. split; [by rewrite app_nil_r | by left].
  - eexists. split; [reflexivity |]. right. right. left. eauto.
  - exists [OpGet token; OpDelete token].
    split; [by rewrite <- app_assoc |]. right. right. right. eauto.
  - exists []. split; [by rewrite app_nil_r | by left].
Qed.

(** X3: the key generator runs once when a handled GET carries no CSRF
    cookie and not at all on any other request; the clock is only read. *)
Theorem generator_runs_only_to_issue
    (cfg : Config) (extractor : Extractor) (c : Ctx) (w : World) :
  let w' := world (snd (serve (handler cfg extractor) c w)) in
  clock w' = clock w
  ∧ keygen_calls w' =
      if bool_decide (bypassed cfg c = false ∧ Method c = MethodGet
                      ∧ Cookies c (CookieName cfg) = "")
      then S (keygen_calls w) else keygen_calls w.
Proof.
  cbn zeta. case_bool_decide as Hissue;
    destruct (serve_served cfg extractor c w);
    cbn [world clock keygen_calls logged]; split; try reflexivity;
    exfalso.
  - destruct Hissue as (Hh & _ & _). congruence.
  - tauto.
  - destruct Hissue as (_ & Hget & _). by apply get_is_not_unsafe in Hget.
  - destruct Hissue as (_ & Hget & _). by apply get_is_not_unsafe in Hget.
  - destruct Hissue as (_ & Hget & _). by apply get_is_not_unsafe in Hget.
  - destruct Hissue as (_ & Hget & _).
    match goal with Hother : _ ∉ known_methods |- _ => apply Hother end.
    rewrite Hget. apply list_elem_of_here.
  - apply Hissue. done.
Qed.

(** ** The valid tokens *)

Lemma serve_keeps_tokens (cfg : Config) (extractor : Extractor) (c : Ctx) (w : World) :
  let w' := world (snd (serve (handler cfg extractor) c w)) in
  (keygen_calls w <= keygen_calls w')%nat
  ∧ tokens w ⊆ tokens w'
  ∧ ∀ token, token ∈ tokens w' ->
      token ∈ tokens w
      ∨ ∃ i, (keygen_calls w <= i < keygen_calls w')%nat ∧ token = KeyGenerator cfg i.
Proof.
  cbn zeta. destruct (serve_served cfg extractor c w) as
    [ | | | | | token ? ? ? Hout | ];
    cbn [world tokens keygen_calls logged];
    try (split; [lia |]; split; [done |]; intros; by left).
  - split; [lia |]. split; [apply union_subseteq_r |].
    intros token [Hnew | Hold]%elem_of_union; [right | by left].
    apply elem_of_singleton in Hnew. exists (keygen_calls w). split; [lia | done].
  - split; [lia |].
    assert (tokens w ∖ {[token]} = tokens w) as ->.
    { apply set_eq. intros x. rewrite elem_of_difference, elem_of_singleton.
      split; [tauto |]. intros Hx. split; [done |]. intros ->.
      apply not_true_iff_false in Hout. by apply Hout, contains_spec. }
    split; [done |]. intros; by left.
Qed.

(** X4: serving a request never takes a valid token out of the store:
    a token that [contains] reports before the request is reported after
    it too, whatever the request and its outcome (the delete of a
    rejected request hits a token that is not there). *)
Theorem valid_token_survives_any_request
    (cfg : Config) (extractor : Extractor) (c : Ctx) (w : World) (token : string) :
  contains (tokens w) token = true ->
  contains (tokens (world (snd (serve (handler cfg extractor) c w)))) token = true.
Proof.
  rewrite !contains_spec. intros Hin.
  by apply (serve_keeps_tokens cfg extractor c w).
Qed.

Lemma valid_token_survives_any_request_witness :
  contains (tokens (world (snd (serve (handler sample.cfg sample.extractor)
                                  (sample.arriving "POST" [("X-Csrf-Token", "B")] [])
                                  (sample.holding ["A"]))))) "A" = true.
Proof.
  apply (valid_token_survives_any_request sample.cfg sample.extractor
           (sample.arriving "POST" [("X-Csrf-Token", "B")] [])
           (sample.holding ["A"]) "A").
  vm_compute. reflexivity.
Defined.

Lemma session_keeps_tokens (cfg : Config) (extractor : Extractor)
    (requests : list Ctx) (w : World) :
  let w' := session (handler cfg extractor) requests w in
  (keygen_calls w <= keygen_calls w')%nat
  ∧ tokens w ⊆ tokens w'
  ∧ ∀ token, token ∈ tokens w' ->
      token ∈ tokens w
      ∨ ∃ i, (keygen_calls w <= i < keygen_calls w')%nat ∧ token = KeyGenerator cfg i.
Proof.
  cbn zeta. revert w. induction requests as [| c rest IH]; intros w; cbn [session].
  - split; [lia |]. split; [done |]. intros; by left.
  - destruct (serve_keeps_tokens cfg extractor c w) as (Hn1 & Hsub1 & Hfrom1).
    destruct (IH (world (snd (serve (handler cfg extractor) c w))))
      as (Hn2 & Hsub2 & Hfrom2).
    split; [lia |]. split; [by etrans |].
    intros token Hin. destruct (Hfrom2 token Hin) as [Hmid | (i & Hi & ->)].
    + destruct (Hfrom1 token Hmid) as [Hold | (i & Hi & ->)]; [by left |].
      right. exists i. split; [lia | done].
    + right. exists i. split; [lia | done].
Qed.



(** ** Issue and verify, one after the other *)



(** X7: a GET that brings a CSRF cookie does not make its token valid:
    when the store does not hold the token, the cookie is sent back all
    the same, and an unsafe request that presents the token right after
    is rejected with 403 Forbidden. *)
Theorem resent_cookie_is_not_registered
    (cfg : Config) (extractor : Extractor) (c1 c2 : Ctx) (w : World) (token : string) :
  bypassed cfg c1 = false ->
  Method c1 = MethodGet ->
  Cookies c1 (CookieName cfg) = token ->
  token ≠ "" ->
  contains (tokens w) token = false ->
  bypassed cfg c2 = false ->
  Method c2 ∈ unsafe_methods ->
  extractor c2 = (token, None) ->
  let run1 := serve (handler cfg extractor) c1 w in
  fst run1 = Continue
  ∧ issue_cookie cfg (clock w) token ∈ set_cookies (ctx (snd run1))
  ∧ fst (serve (handler cfg extractor) c2 (world (snd run1))) = Reject ErrForbidden.
Proof.
  intros Hh1 Hget Hck Hne Hout Hh2 Hun Hex. subst token. cbn zeta.
  rewrite (serve_get_reuse cfg extractor c1 w Hh1 Hget Hne). cbn [fst snd world ctx].
  split; [reflexivity |]. split.
  - rewrite pass_on_set_cookies. apply put_cookie_elem.
  - by erewrite serve_unsafe_miss.
Qed.

Lemma resent_cookie_is_not_registered_witness :
  let run1 := serve (handler sample.cfg sample.extractor)
                (sample.arriving "GET" [] [("csrf_", "Z")]) (sample.holding ["A"]) in
  fst run1 = Continue
  ∧ issue_cookie sample.cfg (clock (sample.holding ["A"])) "Z"
    ∈ set_cookies (ctx (snd run1))
  ∧ fst (serve (handler sample.cfg sample.extractor)
           (sample.arriving "POST" [("X-Csrf-Token", "Z")] [("csrf_", "Z")])
           (world (snd run1))) = Reject ErrForbidden.
Proof.
  apply (resent_cookie_is_not_registered sample.cfg sample.extractor
           (sample.arriving "GET" [] [("csrf_", "Z")])
           (sample.arriving "POST" [("X-Csrf-Token", "Z")] [("csrf_", "Z")])
           (sample.holding ["A"]) "Z").
  - reflexivity.
  - reflexivity.
  - vm_compute. reflexivity.
  - discriminate.
  - vm_compute. reflexivity.
  - reflexivity.
  - apply list_elem_of_here.
  - vm_compute. reflexivity.
Defined.

(** X8: a rejection is stable: the request that was rejected is
    rejected again when it comes back and finds the world the first
    rejection left. *)
Theorem rejected_request_is_rejected_again
    (cfg : Config) (extractor : Extractor) (c : Ctx) (w : World)
    (e : fiber.Error) (st : State) :
  serve (handler cfg extractor) c w = (Reject e, st) ->
  fst (serve (handler cfg extractor) c (world st)) = Reject e.
Proof.
  intros Hrun. pose proof (serve_served cfg extractor c w) as Hs.
  rewrite Hrun in Hs. cbn [fst snd] in Hs.
  inversion Hs as [ | | | token err Hh Hun Hex | | token Hh Hun Hex Hout | ]; subst;
    cbn [world].
  - by erewrite serve_unsafe_no_token.
  - rewrite (serve_unsafe_miss cfg extractor c _ Hh _ Hun Hex); [reflexivity |].
    cbn [logged tokens]. apply not_true_is_false. rewrite contains_spec.
    rewrite elem_of_difference, elem_of_singleton. tauto.
Qed.

Lemma rejected_request_is_rejected_again_witness :
  fst (serve (handler sample.cfg sample.extractor)
         (sample.arriving "DELETE" [] [])
         (world {| ctx := sample.arriving "DELETE" [] [];
                   world := sample.holding ["A"] |})) = Reject ErrForbidden.
Proof.
  apply (rejected_request_is_rejected_again sample.cfg sample.extractor
           (sample.arriving "DELETE" [] []) (sample.holding ["A"]) ErrForbidden
           {| ctx := sample.arriving "DELETE" [] []; world := sample.holding ["A"] |}).
  vm_compute. reflexivity.
Defined.

(** ** The token handed to the next handler *)

Lemma pass_on_slot (cfg : Config) (token : string) (c : Ctx) :
  ContextKey cfg ≠ "" ->
  locals (pass_on cfg token c) !! ContextKey cfg = Some token.
Proof.
  intros Hkey%String.eqb_neq. rewrite pass_on_locals, Hkey.
  apply lookup_insert_eq.
Qed.

(** X9: with a context key configured, a handled request that is passed
    on finds a token in the slot of that key: on a GET the token that
    the attached cookie carries, on an unsafe request the extracted
    token, which the store holds, and on any other method the empty
    string. *)
Theorem slot_holds_the_token_in_play
    (cfg : Config) (extractor : Extractor) (c : Ctx) (w : World) (st : State) :
  ContextKey cfg ≠ "" ->
  bypassed cfg c = false ->
  serve (handler cfg extractor) c w = (Continue, st) ->
  ∃ token, locals (ctx st) !! ContextKey cfg = Some token
    ∧ (Method c = MethodGet ->
       issue_cookie cfg (clock w) token ∈ set_cookies (ctx st))
    ∧ (Method c ∈ unsafe_methods ->
       extractor c = (token, None) ∧ contains (tokens w) token = true)
    ∧ (Method c ∉ known_methods -> token = "").
Proof.
  intros Hkey Hh Hrun. pose proof (serve_served cfg extractor c w) as Hs.
  rewrite Hrun in Hs. cbn [fst snd] in Hs.
  inversion Hs as [ Hskip | _ Hget Hck | _ Hget Hck | | token _ Hun Hex Hin | | _ Hother ];
    subst; cbn [ctx].
  - congruence.
  - eexists. split; [by apply pass_on_slot |].
    rewrite pass_on_set_cookies. split; [intros _; apply put_cookie_elem |].
    split; [by intros ?%get_is_not_unsafe |].
    intros Hno. exfalso. apply Hno. rewrite Hget. apply list_elem_of_here.
  - eexists. split; [by apply pass_on_slot |].
    rewrite pass_on_set_cookies. split; [intros _; apply put_cookie_elem |].
    split; [by intros ?%get_is_not_unsafe |].
    intros Hno. exfalso. apply Hno. rewrite Hget. apply list_elem_of_here.
  - exists token. split; [by apply pass_on_slot |].
    split; [by intros ?%get_is_not_unsafe |]. split; [done |].
    intros Hno. exfalso. apply Hno. by apply list_elem_of_further.
  - exists "". split; [by apply pass_on_slot |].
    split; [| split; [| done]].
    + intros Hget. exfalso. apply Hother. rewrite Hget. apply list_elem_of_here.
    + intros Hun. exfalso. apply Hother. by apply list_elem_of_further.
Qed.

Lemma slot_holds_the_token_in_play_witness :
  ∃ token,
    locals (pass_on sample.cfg "A"
              (sample.arriving "POST" [("X-Csrf-Token", "A")] []))
      !! ContextKey sample.cfg = Some token
    ∧ (Method (sample.arriving "POST" [("X-Csrf-Token", "A")] []) = MethodGet ->
       issue_cookie sample.cfg (clock (sample.holding ["A"])) token
       ∈ set_cookies (pass_on sample.cfg "A"
                        (sample.arriving "POST" [("X-Csrf-Token", "A")] [])))
    ∧ (Method (sample.arriving "POST" [("X-Csrf-Token", "A")] []) ∈ unsafe_methods ->
       sample.extractor (sample.arriving "POST" [("X-Csrf-Token", "A")] [])
       = (token, None)
       ∧ contains (tokens (sample.holding ["A"])) token = true)
    ∧ (Method (sample.arriving "POST" [("X-Csrf-Token", "A")] []) ∉ known_methods ->
       token = "").
Proof.
  apply (slot_holds_the_token_in_play sample.cfg sample.extractor
           (sample.arriving "POST" [("X-Csrf-Token", "A")] [])
           (sample.holding ["A"])
           {| ctx := pass_on sample.cfg "A"
                       (sample.arriving "POST" [("X-Csrf-Token", "A")] []);
              world := logged (OpGet "A") (fun s => s) (sample.holding ["A"]) |}).
  - discriminate.
  - reflexivity.
  - vm_compute. reflexivity.
Defined.

(** X10: the handler writes no slot of the locals but the one of the
    context key, and none at all when no context key is configured, when
    the request is bypassed or when it is rejected. *)
Theorem other_slots_are_kept
    (cfg : Config) (extractor : Extractor) (c : Ctx) (w : World) (key : string) :
  let run := serve (handler cfg extractor) c w in
  key ≠ ContextKey cfg ∨ ContextKey cfg = "" ∨ bypassed cfg c = true
  ∨ fst run = Reject ErrForbidden ->
  locals (ctx (snd run)) !! key = locals c !! key.
Proof.
  cbn zeta. intros Hwhy.
  assert (∀ token c', locals c' = locals c ->
            key ≠ ContextKey cfg ∨ ContextKey cfg = "" ->
            locals (pass_on cfg token c') !! key = locals c !! key) as Hpass.
  { intros token c' Hsame Hcase. rewrite pass_on_locals, Hsame.
    destruct (String.eqb_spec (ContextKey cfg) "") as [Hempty | Hset]; [done |].
    destruct Hcase as [Hother | Hempty]; [| done].
    by rewrite lookup_insert_ne. }
  destruct (serve_served cfg extractor c w) as
    [ Hskip | Hh | Hh | | token Hh | | Hh ]; cbn [ctx fst] in *; try done;
    (destruct Hwhy as [Hother | [Hempty | [Hskip | Hrej]]];
     [apply Hpass; [done | by left] | apply Hpass; [done | by right]
     | congruence | discriminate]).
Qed.

Lemma other_slots_are_kept_witness :
  locals (ctx (snd (serve (handler sample.cfg sample.extractor)
                      (sample.arriving "GET" [] []) (sample.holding []))))
    !! "user" = locals (sample.arriving "GET" [] []) !! "user".
Proof.
  apply (other_slots_are_kept sample.cfg sample.extractor
           (sample.arriving "GET" [] []) (sample.holding []) "user").
  left. discriminate.
Defined.

(** ** What the verify path does not look at *)




(** ** The built-in extractors *)

(** A built-in extractor gives the value at its location and no error,
    or the empty token and the error of its location. *)
Lemma extractor_of_result (src : Source) (param : string) (c : Ctx) :
  match extractor_of src param c with
  | (token, None) => token ≠ "" ∧ token = located src c param
  | (token, Some err) => token = "" ∧ located src c param = "" ∧ err = missing src
  end.
Proof.
  destruct src; cbn [extractor_of located missing];
    unfold csrfFromHeader, csrfFromQuery, csrfFromParam, csrfFromForm, csrfFromCookie;
    cbn zeta;
    match goal with |- context [String.eqb ?value ""] =>
      destruct (String.eqb_spec value "") as [Hempty | Hfull]
    end; done.
Qed.

(** The five missing-token errors are told apart by their text: two
    sources have the same error only when they are the same source. *)
Lemma missing_errors_are_distinct (src1 src2 : Source) :
  errors.Error (missing src1) = errors.Error (missing src2) <-> src1 = src2.
Proof.
  split; [| by intros ->].
  destruct src1, src2; cbn; intros Heq; try reflexivity; discriminate Heq.
Qed.

(** X12: with a built-in extractor, a handled unsafe request is passed
    on exactly when the configured location holds a token that is not
    empty and that the store holds; in every other case it is rejected. *)
Theorem unsafe_request_passes_iff_token_valid
    (cfg : Config) (src : Source) (param : string) (c : Ctx) (w : World) :
  bypassed cfg c = false ->
  Method c ∈ unsafe_methods ->
  let outcome := fst (serve (handler cfg (extractor_of src param)) c w) in
  (outcome = Continue <->
   located src c param ≠ "" ∧ contains (tokens w) (located src c param) = true)
  ∧ (outcome ≠ Continue -> outcome = Reject ErrForbidden).
Proof.
  intros Hh Hun. cbn zeta.
  pose proof (extractor_of_result src param c) as Hex.
  destruct (extractor_of src param c) as [token [err |]] eqn:Heq.
  - destruct Hex as (_ & Hempty & _).
    rewrite (serve_unsafe_no_token cfg _ c w Hh token err Hun Heq). cbn [fst].
    split; [| done]. split; [discriminate | tauto].
  - destruct Hex as (Hfull & ->).
    destruct (contains (tokens w) (located src c param)) eqn:Hin.
    + rewrite (serve_unsafe_hit cfg _ c w Hh _ Hun Heq Hin). cbn [fst].
      split; [| done]. split; done.
    + rewrite (serve_unsafe_miss cfg _ c w Hh _ Hun Heq Hin). cbn [fst].
      split; [| done]. split; [discriminate | intros [_ ?]; discriminate].
Qed.

Lemma unsafe_request_passes_iff_token_valid_witness :
  let outcome := fst (serve (handler sample.cfg (extractor_of FromQuery "csrf_token"))
                        (sample.arriving "POST" [("csrf_token", "A")] [])
                        (sample.holding ["A"])) in
  (outcome = Continue <->
   located FromQuery (sample.arriving "POST" [("csrf_token", "A")] []) "csrf_token" ≠ ""
   ∧ contains (tokens (sample.holding ["A"]))
       (located FromQuery (sample.arriving "POST" [("csrf_token", "A")] [])
          "csrf_token") = true)
  ∧ (outcome ≠ Continue -> outcome = Reject ErrForbidden).
Proof.
  apply (unsafe_request_passes_iff_token_valid sample.cfg FromQuery "csrf_token"
           (sample.arriving "POST" [("csrf_token", "A")] []) (sample.holding ["A"])).
  - reflexivity.
  - apply list_elem_of_here.
Defined.

(** ** KeyLookup and its colons *)

Section Split.
Variable sep : ascii.

Lemma Split_nonempty (s : string) : gostrings.Split s sep ≠ [].
Proof.
  destruct s as [| ch rest]; cbn [gostrings.Split]; [done |].
  destruct (Ascii.eqb ch sep); [done |].
  by destruct (gostrings.Split rest sep).
Qed.

Lemma Split_length (s : string) :
  length (gostrings.Split s sep) = S (count_sep s sep).
Proof.
  induction s as [| ch rest IH]; cbn [gostrings.Split count_sep]; [done |].
  destruct (Ascii.eqb ch sep); cbn [length]; [by rewrite IH |].
  destruct (gostrings.Split rest sep); cbn [length] in *; lia.
Qed.

Lemma Split_sep_free (s : string) :
  count_sep s sep = 0%nat -> gostrings.Split s sep = [s].
Proof.
  induction s as [| ch rest IH]; cbn [gostrings.Split count_sep]; [done |].
  destruct (Ascii.eqb ch sep); [discriminate |].
  intros Hfree. by rewrite IH.
Qed.

Lemma Split_app (a b : string) :
  count_sep a sep = 0%nat ->
  gostrings.Split (a ++ String sep b) sep = a :: gostrings.Split b sep.
Proof.
  induction a as [| ch rest IH]; simpl.
  - intros _. by rewrite Ascii.eqb_refl.
  - destruct (Ascii.eqb ch sep); [discriminate |].
    intros Hfree. by rewrite IH.
Qed.

Lemma Split_parts_free (s part : string) :
  part ∈ gostrings.Split s sep -> count_sep part sep = 0%nat.
Proof.
  revert part. induction s as [| ch rest IH]; intros part; cbn [gostrings.Split].
  - by intros ->%list_elem_of_singleton.
  - destruct (Ascii.eqb ch sep) eqn:Hch.
    + intros [-> | Hin]%elem_of_cons; [done | by apply IH].
    + destruct (gostrings.Split rest sep) as [| first others].
      * intros ->%list_elem_of_singleton. cbn [count_sep]. by rewrite Hch.
      * intros [-> | Hin]%elem_of_cons.
        -- cbn [count_sep]. rewrite Hch. apply IH, list_elem_of_here.
        -- by apply IH, list_elem_of_further.
Qed.

Lemma Split_join (s : string) :
  String.concat (String sep "") (gostrings.Split s sep) = s.
Proof.
  induction s as [| ch rest IH]; cbn [gostrings.Split]; [done |].
  pose proof (Split_nonempty rest) as Hne.
  destruct (Ascii.eqb_spec ch sep) as [-> | Hch].
  - destruct (gostrings.Split rest sep) as [| first others]; [done |].
    rewrite <- IH. reflexivity.
  - destruct (gostrings.Split rest sep) as [| first others]; [done |].
    rewrite <- IH. destruct others; reflexivity.
Qed.
End Split.

Lemma keyword_sep_free (src : Source) : count_sep (keyword src) ":" = 0%nat.
Proof. by destruct src. Qed.

Lemma Split_keyword (src : Source) (key : string) :
  count_sep key ":" = 0%nat ->
  gostrings.Split (keyword src ++ ":" ++ key) ":" = [keyword src; key].
Proof.
  intros Hfree. change (":" ++ key) with (String ":" key).
  rewrite Split_app by apply keyword_sep_free.
  by rewrite Split_sep_free.
Qed.

(** X13: a KeyLookup written as one of the five keywords, a colon and a
    key without colon makes [New] return the handler over the extractor
    of that keyword; the key is taken as written, except for the header
    keyword, whose key goes through CanonicalMIMEHeaderKey.  For the
    cookie keyword the key has to differ from CookieName. *)
Theorem keyword_selects_its_extractor
    (configDefault : list Config -> Config) (canonical : string -> string)
    (config : list Config) (src : Source) (key : string) :
  KeyLookup (configDefault config) = keyword src ++ ":" ++ key ->
  count_sep key ":" = 0%nat ->
  (src = FromCookie -> key ≠ CookieName (configDefault config)) ->
  New configDefault canonical config
  = Handler (handler (effective (configDefault config))
               (extractor_of src (key_of canonical src key))).
Proof.
  intros Hlookup Hfree Hname.
  rewrite (New_selects configDefault canonical config (keyword src) key)
    by (rewrite Hlookup; by apply Split_keyword).
  cbn zeta. destruct src; cbn; try reflexivity.
  destruct (String.eqb_spec key (CookieName (configDefault config))) as [Heq | Hne];
    [by destruct Hname | reflexivity].
Qed.

Lemma keyword_selects_its_extractor_witness :
  New sample.configDefault (fun key => key) [sample.looking_up "form:_csrf"]
  = Handler (handler (effective (sample.looking_up "form:_csrf"))
               (extractor_of FromForm (key_of (fun key => key) FromForm "_csrf"))).
Proof.
  apply (keyword_selects_its_extractor sample.configDefault (fun key => key)
           [sample.looking_up "form:_csrf"] FromForm "_csrf").
  - reflexivity.
  - reflexivity.
  - discriminate.
Defined.

(** X14: [New] panics with the message about the form of KeyLookup
    exactly when the number of colons in KeyLookup is not one: no colon
    and two or more colons are refused alike, also when the first part is
    a known keyword. *)
Theorem New_wants_exactly_one_colon
    (configDefault : list Config -> Config) (canonical : string -> string)
    (config : list Config) :
  New configDefault canonical config
    = Panic "[CSRF] KeyLookup must in the form of <source>:<key>"
  <-> count_sep (KeyLookup (configDefault config)) ":" ≠ 1%nat.
Proof.
  pose proof (Split_length ":" (KeyLookup (configDefault config))) as Hlen.
  split.
  - intros Hpanic Hone. rewrite Hone in Hlen.
    destruct (gostrings.Split (KeyLookup (configDefault config)) ":")
      as [| source [| key [| x l]]] eqn:Hparts; try discriminate Hlen.
    rewrite (New_selects configDefault canonical config source key Hparts) in Hpanic.
    cbn zeta in Hpanic.
    repeat match type of Hpanic with
           | context [String.eqb ?a ?b] => destruct (String.eqb a b)
           end; discriminate Hpanic.
  - intros Hmany. apply New_malformed. lia.
Qed.

(** X15: when [New] returns a handler, KeyLookup is a source, one colon
    and a key, neither of which has a colon, it is not the cookie source
    with the name of the CSRF cookie as key, and the handler is the
    closure over the configuration with its storage set. *)
Theorem handler_means_wellformed_lookup
    (configDefault : list Config -> Config) (canonical : string -> string)
    (config : list Config) (h : M Outcome) :
  New configDefault canonical config = Handler h ->
  ∃ source key,
    KeyLookup (configDefault config) = source ++ ":" ++ key
    ∧ count_sep source ":" = 0%nat
    ∧ count_sep key ":" = 0%nat
    ∧ ¬ (source = "cookie" ∧ key = CookieName (configDefault config))
    ∧ Storage (effective (configDefault config)) ≠ None
    ∧ ∃ extractor, h = handler (effective (configDefault config)) extractor.
Proof.
  intros Hnew.
  destruct (decide (length (gostrings.Split (KeyLookup (configDefault config)) ":")
                    = 2%nat)) as [Hlen | Hlen];
    [| rewrite New_malformed in Hnew by done; discriminate Hnew].
  destruct (gostrings.Split (KeyLookup (configDefault config)) ":")
    as [| source [| key [| x l]]] eqn:Hparts; try discriminate Hlen.
  exists source, key.
  pose proof (Split_join ":" (KeyLookup (configDefault config))) as Hjoin.
  rewrite Hparts in Hjoin. cbn [String.concat] in Hjoin.
  split; [done |].
  split; [apply (Split_parts_free ":" (KeyLookup (configDefault config)));
          rewrite Hparts; apply list_elem_of_here |].
  split; [apply (Split_parts_free ":" (KeyLookup (configDefault config)));
          rewrite Hparts; apply list_elem_of_further, list_elem_of_here |].
  pose proof (New_two_parts configDefault canonical config source key Hparts) as Htwo.
  destruct (decide (source = "cookie" ∧ key = CookieName (configDefault config)))
    as [Hhit | Hfree].
  { destruct Htwo as [msg Hpanic]. rewrite Hpanic in Hnew. discriminate Hnew. }
  split; [done |]. split.
  - unfold effective.
    destruct (Storage (configDefault config)) eqn:Hset; [by rewrite Hset | done].
  - destruct Htwo as [extractor Hh]. rewrite Hh in Hnew.
    exists extractor. by injection Hnew as <-.
Qed.

Lemma handler_means_wellformed_lookup_witness :
  ∃ source key,
    KeyLookup (sample.looking_up "param:token") = source ++ ":" ++ key
    ∧ count_sep source ":" = 0%nat
    ∧ count_sep key ":" = 0%nat
    ∧ ¬ (source = "cookie" ∧ key = CookieName (sample.looking_up "param:token"))
    ∧ Storage (effective (sample.looking_up "param:token")) ≠ None
    ∧ ∃ extractor,
        handler (effective (sample.looking_up "param:token")) (csrfFromParam "token")
        = handler (effective (sample.looking_up "param:token")) extractor.
Proof.
  apply (handler_means_wellformed_lookup sample.configDefault (fun key => key)
           [sample.looking_up "param:token"]
           (handler (effective (sample.looking_up "param:token"))
              (csrfFromParam "token"))).
  reflexivity.
Defined.

(** ** Tokens the middleware did not issue *)

(** X16: a token that was not valid at the start of a session and that
    the key generator never gives cannot be used: whatever requests were
    served before, a handled unsafe request that presents it is rejected
    with 403 Forbidden. *)
Theorem forged_token_is_rejected
    (cfg : Config) (extractor : Extractor) (before : list Ctx) (c : Ctx) (w : World)
    (token : string) :
  contains (tokens w) token = false ->
  (∀ i, KeyGenerator cfg i ≠ token) ->
  bypassed cfg c = false ->
  Method c ∈ unsafe_methods ->
  extractor c = (token, None) ->
  fst (serve (handler cfg extractor) c (session (handler cfg extractor) before w))
  = Reject ErrForbidden.
Proof.
  intros Hout Hforged Hh Hun Hex.
  rewrite (serve_unsafe_miss cfg extractor c _ Hh token Hun Hex); [reflexivity |].
  apply not_true_is_false. rewrite contains_spec. intros Hin.
  destruct (session_keeps_tokens cfg extractor before w) as (_ & _ & Hfrom).
  destruct (Hfrom token Hin) as [Hold | (i & _ & Hgen)].
  - apply contains_spec in Hold. congruence.
  - by apply (Hforged i).
Qed.

Lemma forged_token_is_rejected_witness :
  fst (serve (handler sample.cfg sample.extractor)
         (sample.arriving "POST" [("X-Csrf-Token", "forged")] [])
         (session (handler sample.cfg sample.extractor)
            [sample.arriving "GET" [] []; sample.arriving "GET" [] []]
            (sample.holding [])))
  = Reject ErrForbidden.
Proof.
  apply (forged_token_is_rejected sample.cfg sample.extractor
           [sample.arriving "GET" [] []; sample.arriving "GET" [] []]
           (sample.arriving "POST" [("X-Csrf-Token", "forged")] [])
           (sample.holding []) "forged").
  - vm_compute. reflexivity.
  - intros i. cbn. discriminate.
  - reflexivity.
  - apply list_elem_of_here.
  - vm_compute. reflexivity.
Defined.

(** ** The two cookies *)


